(** * Todo front end (src/todo_frontend/src/App.js)

    A shallow embedding of the four API helpers ([fetchTasks],
    [createTask], [updateTask], [deleteTask]) and of the [App] component's
    state and event handlers, followed by the properties of the
    specification that are checked against them.

    Conventions of the embedding:
    - a JavaScript string is a [string] whose characters are code units
      below 256;
    - a task is the record [{ id, title, completed }] of the REST contract;
      an id is a JSON number (an integer here) or a JSON string, compared
      with [===];
    - an [async] function is a tree of type [Async]: it writes the
      component state, awaits an HTTP exchange, returns or throws;
    - [exec] runs such a tree to completion against a network oracle, with
      no other event handled in between, and records the requests sent. *)

From Stdlib Require Import String Ascii List Bool ZArith NArith Lia.
From Stdlib Require Import DecimalString DecimalN.
Import ListNotations.
Local Open Scope string_scope.

(** ** JavaScript values used by the component *)

Module JS.

(** [String.prototype.trim] strips white space and line terminators:
    TAB, LF, VT, FF, CR, SP and NBSP are the ones below 256. *)
Definition is_white_space (c : ascii) : bool :=
  match N_of_ascii c with
  | 9%N | 10%N | 11%N | 12%N | 13%N | 32%N | 160%N => true
  | _ => false
  end.

Fixpoint trimStart (s : string) : string :=
  match s with
  | EmptyString => EmptyString
  | String c r => if is_white_space c then trimStart r else s
  end.

Fixpoint trimEnd (s : string) : string :=
  match s with
  | EmptyString => EmptyString
  | String c r =>
      match trimEnd r with
      | EmptyString => if is_white_space c then EmptyString
                       else String c EmptyString
      | r' => String c r'
      end
  end.

Definition trim (s : string) : string := trimEnd (trimStart s).

(** Every character of [s] is white space ([s] may be empty). *)
Fixpoint whitespace_only (s : string) : bool :=
  match s with
  | EmptyString => true
  | String c r => is_white_space c && whitespace_only r
  end.

(** [!s] on a string: only the empty string is falsy. *)
Definition falsy (s : string) : bool := (s =? "").

(** [a || b] on strings. *)
Definition or_else (a b : string) : string := if falsy a then b else a.

(** Template-literal rendering of a non-negative integer. *)
Definition of_number (n : N) : string := NilZero.string_of_uint (N.to_uint n).

(** Reading such a rendering back. *)
Definition to_number (s : string) : option N :=
  option_map N.of_uint (NilZero.uint_of_string s).

(** [s.startsWith(p)], returning what follows the prefix. *)
Fixpoint strip_prefix (p s : string) : option string :=
  match p, s with
  | EmptyString, _ => Some s
  | String a p', String b s' => if Ascii.eqb a b then strip_prefix p' s' else None
  | String _ _, EmptyString => None
  end.

(** Thrown values: the error classes that can reach the handlers. *)
Inductive Exn : Type :=
| Error (message : string)
| TypeError (message : string)
| SyntaxError (message : string).

Definition message (e : Exn) : string :=
  match e with
  | Error m | TypeError m | SyntaxError m => m
  end.

End JS.
Import JS.

(** ** Data model *)

Inductive TaskId : Type :=
| IdNum (n : Z)
| IdStr (s : string).

(** [a === b] on ids: no coercion between numbers and strings. *)
Definition strict_eq (a b : TaskId) : bool :=
  match a, b with
  | IdNum x, IdNum y => Z.eqb x y
  | IdStr x, IdStr y => String.eqb x y
  | _, _ => false
  end.

Record Task : Type := mkTask {
  id : TaskId;
  title : string;
  completed : bool
}.

Inductive Filter : Type := All | Active | Completed.

(** The [useState] cells of [App] ([theme] is constant and left out). *)
Record State : Type := mkState {
  tasks : list Task;
  newTitle : string;
  loading : bool;
  busyId : option TaskId;
  error : option string;
  filter : Filter;
  editingId : option TaskId;
  editingTitle : string
}.

(** The first render: the initial values given to [useState]. *)
Definition initial : State :=
  {| tasks := []; newTitle := ""; loading := true; busyId := None;
     error := None; filter := All; editingId := None; editingTitle := "" |}.

(** ** HTTP exchanges *)

(** The body passed to [JSON.stringify] by [updateTask]. *)
Inductive Updates : Type :=
| UpdCompleted (completed : bool)
| UpdTitle (title : string).

Inductive Request : Type :=
| GET_tasks
| POST_tasks (title : string)
| PUT_task (id : TaskId) (updates : Updates)
| DELETE_task (id : TaskId).

(** What [res.json()] yields under the REST contract, per request. The
    body of a DELETE response is never read. *)
Definition Body (req : Request) : Type :=
  match req with
  | GET_tasks => list Task
  | POST_tasks _ => Task
  | PUT_task _ _ => Task
  | DELETE_task _ => unit
  end.

(** A [Response]: its status, and the outcome of reading its body as
    JSON, which rejects when the body is not JSON. *)
Record Response (B : Type) : Type := mkResponse {
  status : N;
  json : Exn + B
}.
Arguments mkResponse {B} _ _.
Arguments status {B} _.
Arguments json {B} _.

(** [res.ok]: the status is in the range 200-299. *)
Definition ok {B} (res : Response B) : bool :=
  (200 <=? status res)%N && (status res <=? 299)%N.

(** [fetch] resolves to a response, or rejects (network failure). *)
Definition Fetched (req : Request) : Type := (Exn + Response (Body req))%type.

Definition Network : Type := forall req : Request, Fetched req.

(** ** Asynchronous computations *)

Inductive Async (A : Type) : Type :=
| Ret (a : A)
| Throw (e : Exn)
| SetState (f : State -> State) (k : Async A)
| Await (req : Request) (k : Fetched req -> Async A).
Arguments Ret {A} _.
Arguments Throw {A} _.
Arguments SetState {A} _ _.
Arguments Await {A} _ _.

Fixpoint bind {A B} (p : Async A) (f : A -> Async B) : Async B :=
  match p with
  | Ret a => f a
  | Throw e => Throw e
  | SetState g k => SetState g (bind k f)
  | Await req k => Await req (fun o => bind (k o) f)
  end.

(** [try { p } catch (err) { h err }] *)
Fixpoint try_catch {A} (p : Async A) (h : Exn -> Async A) : Async A :=
  match p with
  | Ret a => Ret a
  | Throw e => h e
  | SetState g k => SetState g (try_catch k h)
  | Await req k => Await req (fun o => try_catch (k o) h)
  end.

(** [try { p } finally { f }] *)
Fixpoint try_finally {A} (p : Async A) (f : Async unit) : Async A :=
  match p with
  | Ret a => bind f (fun _ => Ret a)
  | Throw e => bind f (fun _ => Throw e)
  | SetState g k => SetState g (try_finally k f)
  | Await req k => Await req (fun o => try_finally (k o) f)
  end.

Declare Scope async_scope.
Delimit Scope async_scope with async.
Notation "x <- p ;; q" := (bind p (fun x => q))
  (at level 61, p at next level, right associativity) : async_scope.
Notation "p ;; q" := (bind p (fun _ => q))
  (at level 61, right associativity) : async_scope.
Notation "'try' p 'catch' h 'finally' f" := (try_finally (try_catch p h) f)
  (at level 61, p at level 9, h at level 9, f at level 9) : async_scope.
Local Open Scope async_scope.

(** [await fetch(...)] *)
Definition fetch (req : Request) : Async (Response (Body req)) :=
  Await req (fun o => match o with
                      | inl e => Throw e
                      | inr res => Ret res
                      end).

(** [res.json()] *)
Definition read_json {B} (res : Response B) : Async B :=
  match json res with
  | inl e => Throw e
  | inr b => Ret b
  end.

(** The value of an [async] run: final state, returned value or uncaught
    exception, and the requests sent, oldest first. *)
Record Run (A : Type) : Type := mkRun {
  final : State;
  result : Exn + A;
  trace : list Request
}.
Arguments mkRun {A} _ _ _.
Arguments final {A} _.
Arguments result {A} _.
Arguments trace {A} _.

Fixpoint exec {A} (net : Network) (p : Async A) (s : State) : Run A :=
  match p with
  | Ret a => mkRun s (inr a) []
  | Throw e => mkRun s (inl e) []
  | SetState f k => exec net k (f s)
  | Await req k =>
      let r := exec net (k (net req)) s in
      mkRun (final r) (result r) (req :: trace r)
  end.

(** ** API client *)

Definition fetchTasks : Async (list Task) :=
  res <- fetch GET_tasks ;;
  if negb (ok res)
  then Throw (Error ("Failed to fetch tasks: " ++ of_number (status res)))
  else read_json res.

Definition createTask (title : string) : Async Task :=
  res <- fetch (POST_tasks title) ;;
  if negb (ok res)
  then Throw (Error ("Failed to create task: " ++ of_number (status res)))
  else read_json res.

Definition updateTask (id : TaskId) (updates : Updates) : Async Task :=
  res <- fetch (PUT_task id updates) ;;
  if negb (ok res)
  then Throw (Error ("Failed to update task: " ++ of_number (status res)))
  else read_json res.

Definition deleteTask (id : TaskId) : Async bool :=
  res <- fetch (DELETE_task id) ;;
  if negb (ok res)
  then Throw (Error ("Failed to delete task: " ++ of_number (status res)))
  else Ret true.

(** ** The [App] component *)

(** State setters. [setTasks] is always called with an updater function,
    applied to the collection current at that time. *)
Definition setTasks (f : list Task -> list Task) : Async unit :=
  SetState (fun s => mkState (f (tasks s)) (newTitle s) (loading s) (busyId s)
                             (error s) (filter s) (editingId s) (editingTitle s))
           (Ret tt).

Definition setNewTitle (v : string) : Async unit :=
  SetState (fun s => mkState (tasks s) v (loading s) (busyId s)
                             (error s) (filter s) (editingId s) (editingTitle s))
           (Ret tt).

Definition setLoading (v : bool) : Async unit :=
  SetState (fun s => mkState (tasks s) (newTitle s) v (busyId s)
                             (error s) (filter s) (editingId s) (editingTitle s))
           (Ret tt).

Definition setBusyId (v : option TaskId) : Async unit :=
  SetState (fun s => mkState (tasks s) (newTitle s) (loading s) v
                             (error s) (filter s) (editingId s) (editingTitle s))
           (Ret tt).

Definition setError (v : option string) : Async unit :=
  SetState (fun s => mkState (tasks s) (newTitle s) (loading s) (busyId s)
                             v (filter s) (editingId s) (editingTitle s))
           (Ret tt).

Definition setFilter (v : Filter) : Async unit :=
  SetState (fun s => mkState (tasks s) (newTitle s) (loading s) (busyId s)
                             (error s) v (editingId s) (editingTitle s))
           (Ret tt).

Definition setEditingId (v : option TaskId) : Async unit :=
  SetState (fun s => mkState (tasks s) (newTitle s) (loading s) (busyId s)
                             (error s) (filter s) v (editingTitle s))
           (Ret tt).

Definition setEditingTitle (v : string) : Async unit :=
  SetState (fun s => mkState (tasks s) (newTitle s) (loading s) (busyId s)
                             (error s) (filter s) (editingId s) v)
           (Ret tt).

(** [prev.map(t => (t.id === task.id ? updated : t))] *)
Definition replace_task (task updated : Task) (prev : list Task) : list Task :=
  map (fun t => if strict_eq (id t) (id task) then updated else t) prev.

(** [prev.filter(t => t.id !== task.id)] *)
Definition remove_task (task : Task) (prev : list Task) : list Task :=
  List.filter (fun t => negb (strict_eq (id t) (id task))) prev.

Section App.

(** The state as read by the render that created the closures below. *)
Variable st : State.

Definition visibleTasks : list Task :=
  match filter st with
  | Active => List.filter (fun t => negb (completed t)) (tasks st)
  | Completed => List.filter (fun t => completed t) (tasks st)
  | All => tasks st
  end.

Definition handleAdd : Async unit :=
  let title := trim (newTitle st) in
  if falsy title then Ret tt
  else
    setError None ;;
    setLoading true ;;
    try (created <- createTask title ;;
         setTasks (fun prev => created :: prev) ;;
         setNewTitle "")
    catch (fun err => setError (Some (or_else (message err) "Failed to add task")))
    finally (setLoading false).

Definition handleToggle (task : Task) : Async unit :=
  setBusyId (Some (id task)) ;;
  setError None ;;
  try (updated <- updateTask (id task) (UpdCompleted (negb (completed task))) ;;
       setTasks (replace_task task updated))
  catch (fun err => setError (Some (or_else (message err) "Failed to toggle task")))
  finally (setBusyId None).

Definition handleDelete (task : Task) : Async unit :=
  setBusyId (Some (id task)) ;;
  setError None ;;
  try (deleteTask (id task) ;;
       setTasks (remove_task task))
  catch (fun err => setError (Some (or_else (message err) "Failed to delete task")))
  finally (setBusyId None).

Definition startEdit (task : Task) : Async unit :=
  setEditingId (Some (id task)) ;;
  setEditingTitle (title task).

Definition cancelEdit : Async unit :=
  setEditingId None ;;
  setEditingTitle "".

Definition saveEdit (task : Task) : Async unit :=
  let title' := trim (editingTitle st) in
  if falsy title' || (title' =? title task)
  then cancelEdit
  else
    setBusyId (Some (id task)) ;;
    setError None ;;
    try (updated <- updateTask (id task) (UpdTitle title') ;;
         setTasks (replace_task task updated) ;;
         cancelEdit)
    catch (fun err => setError (Some (or_else (message err) "Failed to update task")))
    finally (setBusyId None).

End App.

(** A row is shown busy when [busyId === task.id]. *)
Definition is_busy (s : State) (task : Task) : bool :=
  match busyId s with
  | Some b => strict_eq b (id task)
  | None => false
  end.

(** ** Vocabulary of the specification *)

(** The failure an API operation raises on a response that is not ok:
    an [Error] whose message is the operation's text followed by the
    status. *)
Definition api_failure (operation : string) (st : N) : Exn :=
  Error (operation ++ of_number st).

(** The four operations of the API client, with the request each sends,
    the text of its failure, the JavaScript function that implements it
    and what it hands back on an ok response. *)
Inductive Operation : Type :=
| OpList
| OpCreate (title : string)
| OpUpdate (id : TaskId) (updates : Updates)
| OpDelete (id : TaskId).

Definition request_of (op : Operation) : Request :=
  match op with
  | OpList => GET_tasks
  | OpCreate title => POST_tasks title
  | OpUpdate i u => PUT_task i u
  | OpDelete i => DELETE_task i
  end.

Definition text_of (op : Operation) : string :=
  match op with
  | OpList => "Failed to fetch tasks: "
  | OpCreate _ => "Failed to create task: "
  | OpUpdate _ _ => "Failed to update task: "
  | OpDelete _ => "Failed to delete task: "
  end.

Definition Returned (op : Operation) : Type :=
  match op with
  | OpList => list Task
  | OpCreate _ => Task
  | OpUpdate _ _ => Task
  | OpDelete _ => bool
  end.

Definition call (op : Operation) : Async (Returned op) :=
  match op with
  | OpList => fetchTasks
  | OpCreate title => createTask title
  | OpUpdate i u => updateTask i u
  | OpDelete i => deleteTask i
  end.

Definition delivered (op : Operation) :
    Response (Body (request_of op)) -> Exn + Returned op :=
  match op with
  | OpList => fun res => json res
  | OpCreate _ => fun res => json res
  | OpUpdate _ _ => fun res => json res
  | OpDelete _ => fun _ => inr true
  end.

Definition failed {A} (x : Exn + A) : bool :=
  match x with
  | inl _ => true
  | inr _ => false
  end.

(** What an API helper hands to its caller, by cases on the exchange:
    a rejection of [fetch] is passed on, a response that is not ok gives
    the helper's own failure, and an ok response gives [on_ok]. *)
Definition api_result {B C} (operation : string) (on_ok : Response B -> Exn + C)
    (o : Exn + Response B) : Exn + C :=
  match o with
  | inl e => inl e
  | inr res => if ok res then on_ok res
               else inl (api_failure operation (status res))
  end.

(** The status a failure message carries after the operation's text. *)
Definition status_carried (operation : string) (e : Exn) : option N :=
  match strip_prefix operation (message e) with
  | Some rest => to_number rest
  | None => None
  end.

(** The value an API operation hands to its caller under [net]. The
    state plays no part: the API helpers never write it. *)
Definition outcome {A} (net : Network) (p : Async A) : Exn + A :=
  result (exec net p initial).

Definition raises {A} (net : Network) (p : Async A) : bool :=
  failed (outcome net p).

(** A non-empty message is on display in the error banner. *)
Definition error_shown (s : State) : Prop :=
  exists m, error s = Some m /\ m <> "".

(** Number of elements of the collection whose id is [x]. *)
Definition count_id (x : TaskId) (l : list Task) : nat :=
  length (List.filter (fun t => strict_eq (id t) x) l).

(** A network that answers every request with the given status and,
    where a body is read, with the given task or list. *)
Definition answer (st : N) (t : Exn + Task) (l : Exn + list Task) : Network :=
  fun req =>
    match req return Fetched req with
    | GET_tasks => inr (mkResponse st l)
    | POST_tasks _ => inr (mkResponse st t)
    | PUT_task _ _ => inr (mkResponse st t)
    | DELETE_task _ => inr (mkResponse st (inr tt))
    end.

(** A network on which [fetch] itself rejects. *)
Definition offline (e : Exn) : Network := fun req => inl e.

(** ** The rest of the component *)

(** The effect run on mount:
    [fetchTasks().then(..).catch(..).finally(..)] after two synchronous
    writes. [ignore] is the value of the effect's flag when the promise
    settles, [true] once the clean-up has run; the three callbacks run
    back to back and read the same value. An array is truthy, so
    [data || []] is [data]; the collection is set to it, not updated
    from the previous one. *)
Definition loadOnMount (ignore : bool) : Async unit :=
  setLoading true ;;
  setError None ;;
  try (data <- fetchTasks ;;
       if negb ignore then setTasks (fun _ => data) else Ret tt)
  catch (fun err => if negb ignore
                    then setError (Some (or_else (message err) "Failed to load"))
                    else Ret tt)
  finally (if negb ignore then setLoading false else Ret tt).

(** [disabled={loading || !newTitle.trim()}] on the Add button. *)
Definition addDisabled (st : State) : bool :=
  loading st || falsy (trim (newTitle st)).

(** [process.env.REACT_APP_API_BASE || 'http://localhost:3001'], the
    variable being a string or undefined. *)
Definition API_BASE (env : option string) : string :=
  match env with
  | Some v => or_else v "http://localhost:3001"
  | None => "http://localhost:3001"
  end.

(** [base.replace(/^https?:\/\//, '')]: the pattern is anchored and not
    global, so one leading [http://] or [https://] is dropped. *)
Definition footerLabel (base : string) : string :=
  match strip_prefix "http" base with
  | Some rest =>
      match strip_prefix "s://" rest with
      | Some host => host
      | None =>
          match strip_prefix "://" rest with
          | Some host => host
          | None => base
          end
      end
  | None => base
  end.

(** A backend that stores what it is sent for [task]: it answers an
    update of the task's id with the task so updated. *)
Definition applied (task : Task) (u : Updates) : Task :=
  match u with
  | UpdCompleted b => mkTask (id task) (title task) b
  | UpdTitle t => mkTask (id task) t (completed task)
  end.

Definition obeys (net : Network) (task : Task) : Prop :=
  forall u, net (PUT_task (id task) u)
            = inr (mkResponse 200 (inr (applied task u))).

(** The network that answers every update of whatever id with 200 and the
    update applied to [task], and any other request with 204. *)
Definition store (task : Task) : Network :=
  fun req =>
    match req return Fetched req with
    | GET_tasks => inr (mkResponse 204 (inr []))
    | POST_tasks _ => inr (mkResponse 204 (inr task))
    | PUT_task _ u => inr (mkResponse 200 (inr (applied task u)))
    | DELETE_task _ => inr (mkResponse 204 (inr tt))
    end.

(** ** Sample data *)

(** The scenario of the specification: the collection
    [[{id:1, title:"A", completed:false}]] and the record
    [{id:1, title:"A", completed:true}]. *)
Definition task_A : Task := mkTask (IdNum 1) "A" false.
Definition task_A_done : Task := mkTask (IdNum 1) "A" true.
Definition task_B : Task := mkTask (IdNum 2) "B" true.

Definition idle (l : list Task) : State :=
  mkState l "" false None None All None "".

(** Two records under one id, as a backend could list them. *)
Definition task_A_twin : Task := mkTask (IdNum 1) "A again" true.
Definition twins : State := idle [task_A; task_B; task_A_twin].

(** The user has typed a title in the new-task input. *)
Definition typing (text : string) : State :=
  mkState [task_A] text false None None All None "".

(** A task whose stored title starts with a space, opened for editing
    with the draft as seeded by [startEdit]. *)
Definition task_padded : Task := mkTask (IdNum 3) " A" false.
Definition editing (task : Task) (draft : string) : State :=
  mkState [task] "" false None None All (Some (id task)) draft.

(** A 200 response whose body is not JSON. *)
Definition not_json : Network :=
  answer 200 (inl (SyntaxError "Unexpected end of JSON input"))
             (inl (SyntaxError "Unexpected end of JSON input")).

(** ** Basic facts about the JavaScript primitives *)

Lemma strict_eq_spec (a b : TaskId) : reflect (a = b) (strict_eq a b).
Proof.
  destruct a as [x|x], b as [y|y]; simpl; try (constructor; discriminate).
  - destruct (Z.eqb_spec x y); constructor; congruence.
  - destruct (String.eqb_spec x y); constructor; congruence.
Qed.

Lemma strict_eq_refl (a : TaskId) : strict_eq a a = true.
Proof. destruct (strict_eq_spec a a); congruence. Qed.

Lemma strict_eq_true (a b : TaskId) : strict_eq a b = true -> a = b.
Proof. destruct (strict_eq_spec a b); congruence. Qed.

Lemma falsy_true (s : string) : falsy s = true <-> s = "".
Proof. unfold falsy. apply String.eqb_eq. Qed.

Lemma falsy_false (s : string) : falsy s = false <-> s <> "".
Proof. unfold falsy. apply String.eqb_neq. Qed.

Lemma or_else_nonempty (a b : string) : b <> "" -> or_else a b <> "".
Proof.
  intros Hb. unfold or_else. destruct (falsy a) eqn:Ha; [exact Hb|].
  now apply falsy_false.
Qed.

Lemma trimStart_whitespace_only (s : string) :
  whitespace_only s = true -> trimStart s = "".
Proof.
  induction s as [|c r IH]; simpl; [reflexivity|].
  intros H. apply andb_prop in H as [Hc Hr]. rewrite Hc. auto.
Qed.

Lemma trim_whitespace_only (s : string) :
  whitespace_only s = true -> trim s = "".
Proof. intros H. unfold trim. now rewrite trimStart_whitespace_only. Qed.

Lemma trimEnd_empty (s : string) :
  trimEnd s = "" -> whitespace_only s = true.
Proof.
  induction s as [|c r IH]; simpl; [reflexivity|].
  destruct (trimEnd r); [|discriminate].
  destruct (is_white_space c); [|discriminate].
  intros _. now rewrite IH.
Qed.

Lemma trimStart_keeps_blank_tail (s : string) :
  whitespace_only (trimStart s) = true -> whitespace_only s = true.
Proof.
  induction s as [|c r IH]; simpl; [reflexivity|].
  destruct (is_white_space c) eqn:Hc; simpl; [exact IH|].
  rewrite Hc. discriminate.
Qed.

(** [trim] yields the empty string exactly on white-space-only input. *)
Lemma trim_empty_iff (s : string) :
  trim s = "" <-> whitespace_only s = true.
Proof.
  split; [|apply trim_whitespace_only].
  intros H. apply trimStart_keeps_blank_tail, trimEnd_empty, H.
Qed.

Lemma strip_prefix_app (p s : string) : strip_prefix p (p ++ s) = Some s.
Proof.
  induction p as [|a p IH]; simpl; [now destruct s|].
  now rewrite Ascii.eqb_refl.
Qed.

Lemma to_uint_nonnil (n : N) : N.to_uint n <> Decimal.Nil.
Proof.
  destruct n as [|p]; simpl; [discriminate|].
  apply DecimalPos.Unsigned.to_uint_nonnil.
Qed.

Lemma to_number_of_number (n : N) : to_number (of_number n) = Some n.
Proof.
  unfold to_number, of_number.
  rewrite NilZero.usu by apply to_uint_nonnil.
  simpl. now rewrite DecimalN.Unsigned.of_to.
Qed.

Lemma status_carried_api_failure (operation : string) (st : N) :
  status_carried operation (api_failure operation st) = Some st.
Proof.
  unfold status_carried, api_failure. simpl.
  rewrite strip_prefix_app. apply to_number_of_number.
Qed.

(** ** What the API helpers hand back, by cases on the exchange *)

Lemma fetchTasks_outcome (net : Network) :
  outcome net fetchTasks
  = api_result "Failed to fetch tasks: " json (net GET_tasks).
Proof.
  unfold outcome, fetchTasks, fetch, read_json, api_result, api_failure.
  cbn [exec bind result].
  destruct (net GET_tasks) as [e|res]; cbn [exec bind result]; [reflexivity|].
  destruct (ok res); cbn [negb]; [destruct (json res)|]; reflexivity.
Qed.

Lemma createTask_outcome (net : Network) (title : string) :
  outcome net (createTask title)
  = api_result "Failed to create task: " json (net (POST_tasks title)).
Proof.
  unfold outcome, createTask, fetch, read_json, api_result, api_failure.
  cbn [exec bind result].
  destruct (net (POST_tasks title)) as [e|res]; cbn [exec bind result]; [reflexivity|].
  destruct (ok res); cbn [negb]; [destruct (json res)|]; reflexivity.
Qed.

Lemma updateTask_outcome (net : Network) (i : TaskId) (u : Updates) :
  outcome net (updateTask i u)
  = api_result "Failed to update task: " json (net (PUT_task i u)).
Proof.
  unfold outcome, updateTask, fetch, read_json, api_result, api_failure.
  cbn [exec bind result].
  destruct (net (PUT_task i u)) as [e|res]; cbn [exec bind result]; [reflexivity|].
  destruct (ok res); cbn [negb]; [destruct (json res)|]; reflexivity.
Qed.

Lemma deleteTask_outcome (net : Network) (i : TaskId) :
  outcome net (deleteTask i)
  = api_result "Failed to delete task: " (fun _ => inr true) (net (DELETE_task i)).
Proof.
  unfold outcome, deleteTask, fetch, api_result, api_failure.
  cbn [exec bind result].
  destruct (net (DELETE_task i)) as [e|res]; cbn [exec bind result]; [reflexivity|].
  destruct (ok res); reflexivity.
Qed.

Lemma call_outcome (net : Network) (op : Operation) :
  outcome net (call op)
  = api_result (text_of op) (delivered op) (net (request_of op)).
Proof.
  destruct op; simpl.
  - apply fetchTasks_outcome.
  - apply createTask_outcome.
  - apply updateTask_outcome.
  - apply deleteTask_outcome.
Qed.

(** ** Runs of the event handlers *)

(** Steps through a handler whose only exchange is [req]: the cases are
    a rejected [fetch], a response that is not ok, an ok response whose
    body does not parse, and an ok response with a body. *)
Ltac step_exec := cbn [exec bind try_catch try_finally final result trace].

Ltac by_exchange net req :=
  step_exec;
  destruct (net req) as [?e|?res]; step_exec; [reflexivity|];
  destruct (ok _); cbn [negb]; step_exec; [|reflexivity];
  try (destruct (json _); step_exec); reflexivity.

Lemma exec_handleToggle (net : Network) (task : Task) (s : State) :
  exec net (handleToggle task) s
  = mkRun
      match outcome net (updateTask (id task) (UpdCompleted (negb (completed task)))) with
      | inr updated =>
          mkState (replace_task task updated (tasks s)) (newTitle s) (loading s)
                  None None (filter s) (editingId s) (editingTitle s)
      | inl err =>
          mkState (tasks s) (newTitle s) (loading s) None
                  (Some (or_else (message err) "Failed to toggle task"))
                  (filter s) (editingId s) (editingTitle s)
      end
      (inr tt)
      [PUT_task (id task) (UpdCompleted (negb (completed task)))].
Proof.
  rewrite updateTask_outcome.
  unfold handleToggle, updateTask, fetch, read_json, api_result, api_failure,
    setBusyId, setError, setTasks.
  by_exchange net (PUT_task (id task) (UpdCompleted (negb (completed task)))).
Qed.

Lemma exec_handleDelete (net : Network) (task : Task) (s : State) :
  exec net (handleDelete task) s
  = mkRun
      match outcome net (deleteTask (id task)) with
      | inr _ =>
          mkState (remove_task task (tasks s)) (newTitle s) (loading s)
                  None None (filter s) (editingId s) (editingTitle s)
      | inl err =>
          mkState (tasks s) (newTitle s) (loading s) None
                  (Some (or_else (message err) "Failed to delete task"))
                  (filter s) (editingId s) (editingTitle s)
      end
      (inr tt)
      [DELETE_task (id task)].
Proof.
  rewrite deleteTask_outcome.
  unfold handleDelete, deleteTask, fetch, api_result, api_failure,
    setBusyId, setError, setTasks.
  by_exchange net (DELETE_task (id task)).
Qed.

Lemma exec_cancelEdit (net : Network) (s : State) :
  exec net cancelEdit s
  = mkRun (mkState (tasks s) (newTitle s) (loading s) (busyId s) (error s)
                   (filter s) None "")
          (inr tt) [].
Proof. reflexivity. Qed.

Lemma exec_handleAdd_blank (net : Network) (s : State) :
  falsy (trim (newTitle s)) = true ->
  exec net (handleAdd s) s = mkRun s (inr tt) [].
Proof. intros H. unfold handleAdd. now rewrite H. Qed.

Lemma exec_handleAdd_send (net : Network) (s : State) :
  falsy (trim (newTitle s)) = false ->
  exec net (handleAdd s) s
  = mkRun
      match outcome net (createTask (trim (newTitle s))) with
      | inr created =>
          mkState (created :: tasks s) "" false (busyId s) None
                  (filter s) (editingId s) (editingTitle s)
      | inl err =>
          mkState (tasks s) (newTitle s) false (busyId s)
                  (Some (or_else (message err) "Failed to add task"))
                  (filter s) (editingId s) (editingTitle s)
      end
      (inr tt)
      [POST_tasks (trim (newTitle s))].
Proof.
  intros H. rewrite createTask_outcome.
  unfold handleAdd. rewrite H.
  unfold createTask, fetch, read_json, api_result, api_failure,
    setLoading, setError, setTasks, setNewTitle.
  by_exchange net (POST_tasks (trim (newTitle s))).
Qed.

Lemma exec_saveEdit_cancel (net : Network) (s : State) (task : Task) :
  falsy (trim (editingTitle s)) || (trim (editingTitle s) =? title task) = true ->
  exec net (saveEdit s task) s = exec net cancelEdit s.
Proof. intros H. unfold saveEdit. now rewrite H. Qed.

Lemma exec_saveEdit_send (net : Network) (s : State) (task : Task) :
  falsy (trim (editingTitle s)) || (trim (editingTitle s) =? title task) = false ->
  exec net (saveEdit s task) s
  = mkRun
      match outcome net (updateTask (id task) (UpdTitle (trim (editingTitle s)))) with
      | inr updated =>
          mkState (replace_task task updated (tasks s)) (newTitle s) (loading s)
                  None None (filter s) None ""
      | inl err =>
          mkState (tasks s) (newTitle s) (loading s) None
                  (Some (or_else (message err) "Failed to update task"))
                  (filter s) (editingId s) (editingTitle s)
      end
      (inr tt)
      [PUT_task (id task) (UpdTitle (trim (editingTitle s)))].
Proof.
  intros H. rewrite updateTask_outcome.
  unfold saveEdit. rewrite H.
  unfold updateTask, fetch, read_json, api_result, api_failure, cancelEdit,
    setBusyId, setError, setTasks, setEditingId, setEditingTitle.
  by_exchange net (PUT_task (id task) (UpdTitle (trim (editingTitle s)))).
Qed.

(** ** Facts about the two collection updates *)

Lemma replace_task_length (task updated : Task) (l : list Task) :
  length (replace_task task updated l) = length l.
Proof. unfold replace_task. apply length_map. Qed.

Lemma replace_task_nth (task updated : Task) (l : list Task) (i : nat) (t : Task) :
  nth_error l i = Some t ->
  nth_error (replace_task task updated l) i
  = Some (if strict_eq (id t) (id task) then updated else t).
Proof.
  intros H. unfold replace_task. rewrite nth_error_map, H. reflexivity.
Qed.

Lemma replace_task_In (task updated : Task) (l : list Task) :
  In task l -> In updated (replace_task task updated l).
Proof.
  intros H. unfold replace_task. apply in_map_iff.
  exists task. now rewrite strict_eq_refl.
Qed.

Lemma remove_task_In (task t : Task) (l : list Task) :
  In t (remove_task task l) <-> In t l /\ id t <> id task.
Proof.
  unfold remove_task. rewrite filter_In.
  destruct (strict_eq_spec (id t) (id task)); simpl; intuition congruence.
Qed.

Lemma remove_task_length (task : Task) (l : list Task) :
  length (remove_task task l) + count_id (id task) l = length l.
Proof.
  unfold remove_task, count_id.
  induction l as [|t l IH]; simpl; [reflexivity|].
  destruct (strict_eq (id t) (id task)); simpl; lia.
Qed.

Lemma remove_task_count_other (task : Task) (x : TaskId) (l : list Task) :
  x <> id task -> count_id x (remove_task task l) = count_id x l.
Proof.
  intros Hx. unfold remove_task, count_id.
  induction l as [|t l IH]; simpl; [reflexivity|].
  destruct (strict_eq_spec (id t) (id task)) as [E|E]; simpl.
  - destruct (strict_eq_spec (id t) x); [congruence|exact IH].
  - destruct (strict_eq (id t) x); simpl; now rewrite IH.
Qed.

Lemma count_id_absent (x : TaskId) (l : list Task) :
  ~ In x (map id l) -> count_id x l = 0.
Proof.
  unfold count_id. induction l as [|t l IH]; simpl; [reflexivity|].
  intros H. destruct (strict_eq_spec (id t) x); [tauto|]. apply IH. tauto.
Qed.

Lemma count_id_unique (task : Task) (l : list Task) :
  NoDup (map id l) -> In task l -> count_id (id task) l = 1.
Proof.
  induction l as [|t l IH]; simpl; [tauto|].
  intros Hnd Hin. inversion Hnd as [|? ? Hnotin Hnd']; subst.
  unfold count_id in *. simpl.
  destruct Hin as [->|Hin].
  - rewrite strict_eq_refl. simpl. f_equal. now apply count_id_absent.
  - destruct (strict_eq_spec (id t) (id task)) as [E|E]; [|now apply IH].
    exfalso. apply Hnotin. rewrite E. now apply in_map.
Qed.

(** ** Properties of the specification *)

(** C1. When a task of the collection is toggled and the update succeeds,
    every row that carried the task's id holds the record the server
    returned, whatever its [completed] value is (in particular when it is
    not the negation of the previous value); the other rows and the length
    of the collection are untouched. *)
Theorem toggle_success_holds_server_record
    (net : Network) (task updated : Task) (s : State) :
  In task (tasks s) ->
  outcome net (updateTask (id task) (UpdCompleted (negb (completed task))))
    = inr updated ->
  let s' := final (exec net (handleToggle task) s) in
  In updated (tasks s') /\
  length (tasks s') = length (tasks s) /\
  forall i t, nth_error (tasks s) i = Some t ->
    nth_error (tasks s') i
    = Some (if strict_eq (id t) (id task) then updated else t).
Proof.
  intros Hin Hok s'. subst s'. rewrite exec_handleToggle, Hok.
  cbn [final tasks].
  split; [|split].
  - now apply replace_task_In.
  - apply replace_task_length.
  - intros i t. apply replace_task_nth.
Qed.

(** The server answers the toggle of [task_A] with a record that is still
    not completed: the row shows that record, not the negation. *)
Lemma toggle_success_holds_server_record_witness :
  let s' := final (exec (answer 200 (inr task_A) (inr [])) (handleToggle task_A)
                        (idle [task_A; task_B])) in
  In task_A (tasks s') /\
  length (tasks s') = 2 /\
  forall i t, nth_error [task_A; task_B] i = Some t ->
    nth_error (tasks s') i
    = Some (if strict_eq (id t) (id task_A) then task_A else t).
Proof.
  apply (toggle_success_holds_server_record
           (answer 200 (inr task_A) (inr [])) task_A task_A (idle [task_A; task_B])).
  - simpl. left. reflexivity.
  - reflexivity.
Defined.

(** C2. The visible list depends on the collection and the filter mode
    only. Under [Active] it holds exactly the tasks that are not completed,
    under [Completed] exactly the completed ones, under [All] it is the
    collection; the two filtered views split the collection between them.
    The computation returns a list and no state: the collection it reads is
    the one the state still holds. *)
Theorem visibleTasks_is_pure_filter (s s2 : State) :
  (tasks s2 = tasks s -> filter s2 = filter s ->
     visibleTasks s2 = visibleTasks s) /\
  (filter s = Active ->
     forall t, In t (visibleTasks s) <-> In t (tasks s) /\ completed t = false) /\
  (filter s = Completed ->
     forall t, In t (visibleTasks s) <-> In t (tasks s) /\ completed t = true) /\
  (filter s = All -> visibleTasks s = tasks s) /\
  (filter s = Active -> filter s2 = Completed -> tasks s2 = tasks s ->
     length (visibleTasks s) + length (visibleTasks s2) = length (tasks s)).
Proof.
  unfold visibleTasks.
  split; [|split; [|split; [|split]]].
  - intros -> ->. reflexivity.
  - intros -> t. rewrite filter_In.
    destruct (completed t); simpl; intuition congruence.
  - intros -> t. rewrite filter_In. tauto.
  - intros ->. reflexivity.
  - intros -> -> ->.
    induction (tasks s) as [|t l IH]; simpl; [reflexivity|].
    destruct (completed t); simpl; lia.
Qed.

Lemma visibleTasks_is_pure_filter_witness :
  let s := mkState [task_A; task_B] "" false None None Active None "" in
  let s2 := mkState [task_A; task_B] "x" true None None Completed None "" in
  (forall t, In t (visibleTasks s) <-> In t (tasks s) /\ completed t = false) /\
  length (visibleTasks s) + length (visibleTasks s2) = 2.
Proof.
  intros s s2.
  destruct (visibleTasks_is_pure_filter s s2) as (_ & Ha & _ & _ & Hlen).
  split.
  - apply Ha. reflexivity.
  - apply Hlen; reflexivity.
Defined.

(** C3, as amended. When the backend accepts the deletion of a task, the
    collection loses every element whose id is the task's id and no other
    element: the elements with another id keep their number, and the length
    drops by the number of elements that carried the id. That number is one
    when the ids of the collection are pairwise distinct and the task is in
    the collection. *)
Theorem delete_success_removes_matching_ids
    (net : Network) (task : Task) (s : State) :
  outcome net (deleteTask (id task)) = inr true ->
  let s' := final (exec net (handleDelete task) s) in
  (forall t, In t (tasks s') <-> In t (tasks s) /\ id t <> id task) /\
  (forall x, x <> id task -> count_id x (tasks s') = count_id x (tasks s)) /\
  length (tasks s') + count_id (id task) (tasks s) = length (tasks s) /\
  (NoDup (map id (tasks s)) -> In task (tasks s) ->
     length (tasks s') + 1 = length (tasks s)).
Proof.
  intros Hok s'. subst s'. rewrite exec_handleDelete, Hok.
  cbn [final tasks].
  split; [|split; [|split]].
  - intros t. apply remove_task_In.
  - intros x Hx. now apply remove_task_count_other.
  - apply remove_task_length.
  - intros Hnd Hin. rewrite <- (count_id_unique task (tasks s) Hnd Hin).
    apply remove_task_length.
Qed.

Lemma delete_success_removes_matching_ids_witness :
  let s' := final (exec (answer 204 (inr task_A) (inr [])) (handleDelete task_A)
                        (idle [task_A; task_B])) in
  (forall t, In t (tasks s') <-> In t [task_A; task_B] /\ id t <> id task_A) /\
  (forall x, x <> id task_A -> count_id x (tasks s') = count_id x [task_A; task_B]) /\
  length (tasks s') + count_id (id task_A) [task_A; task_B] = 2 /\
  (NoDup (map id [task_A; task_B]) -> In task_A [task_A; task_B] ->
     length (tasks s') + 1 = 2).
Proof.
  apply (delete_success_removes_matching_ids
           (answer 204 (inr task_A) (inr [])) task_A (idle [task_A; task_B])).
  reflexivity.
Defined.

(** C3 as stated fails: with two elements under id 1, an accepted deletion
    of that id removes both, so the collection does not lose exactly one
    element. *)
Lemma delete_removes_exactly_one_fails :
  let net := answer 204 (inr task_A) (inr []) in
  outcome net (deleteTask (id task_A)) = inr true /\
  length (tasks twins) = 3 /\
  length (tasks (final (exec net (handleDelete task_A) twins))) = 1 /\
  ~ (length (tasks (final (exec net (handleDelete task_A) twins))) + 1
     = length (tasks twins)).
Proof. repeat split. discriminate. Qed.

(** C4, as amended. For each of the four API operations: a rejection of
    [fetch] is passed on unchanged; on a response whose status is not 2xx
    the operation raises its own failure, an [Error] whose message is the
    operation's text followed by the status (which can be read back from
    the message), and the body is not consulted; on a 2xx response it hands
    back what reading the body gives ([true] for the deletion, whose body
    is not read), which is a failure when the body is not JSON. So an
    operation raises exactly when no response arrived, or the status is not
    2xx, or the body it has to read cannot be parsed; the caller gets a
    failure or a value, never both. *)
Theorem api_call_outcome (net : Network) (op : Operation) :
  match net (request_of op) with
  | inl e => outcome net (call op) = inl e
  | inr res =>
      if ok res
      then outcome net (call op) = delivered op res
      else outcome net (call op) = inl (api_failure (text_of op) (status res)) /\
           status_carried (text_of op) (api_failure (text_of op) (status res))
           = Some (status res)
  end /\
  raises net (call op)
  = match net (request_of op) with
    | inl _ => true
    | inr res => negb (ok res) || failed (delivered op res)
    end.
Proof.
  unfold raises. rewrite call_outcome. unfold api_result.
  destruct (net (request_of op)) as [e|res]; [split; reflexivity|].
  destruct (ok res); simpl.
  - split; reflexivity.
  - split; [split; [reflexivity|apply status_carried_api_failure]|reflexivity].
Qed.

(** C4 as stated fails: a 200 response whose body is not JSON makes
    [updateTask] raise although the status is successful. *)
Lemma api_raises_on_successful_status :
  let op := OpUpdate (IdNum 1) (UpdCompleted true) in
  let res := mkResponse 200 (inl (SyntaxError "Unexpected end of JSON input")) in
  not_json (request_of op) = inr res /\
  ok res = true /\
  raises not_json (call op) = true /\
  ~ (raises not_json (call op) = true <-> ok res = false).
Proof.
  repeat split.
  intros [H _]. specialize (H eq_refl). discriminate H.
Qed.

(** A failed update leaves a non-empty message in the banner. *)
Lemma error_shown_or_else (s : State) (m fallback : string) :
  error s = Some (or_else m fallback) -> fallback <> "" -> error_shown s.
Proof.
  intros He Hf. exists (or_else m fallback). split; [exact He|].
  now apply or_else_nonempty.
Qed.

(** C5. When the update request of a toggle, or of a title save that does
    send one, fails, the collection and the visible list are what they were
    before the operation and the error banner holds a non-empty message. *)
Theorem failed_update_changes_nothing (net : Network) (task : Task) (s : State) :
  (raises net (updateTask (id task) (UpdCompleted (negb (completed task)))) = true ->
   let s' := final (exec net (handleToggle task) s) in
   tasks s' = tasks s /\ visibleTasks s' = visibleTasks s /\ error_shown s') /\
  (falsy (trim (editingTitle s)) || (trim (editingTitle s) =? title task) = false ->
   raises net (updateTask (id task) (UpdTitle (trim (editingTitle s)))) = true ->
   let s' := final (exec net (saveEdit s task) s) in
   tasks s' = tasks s /\ visibleTasks s' = visibleTasks s /\ error_shown s').
Proof.
  split.
  - intros Hf s'. subst s'. unfold raises in Hf. rewrite exec_handleToggle.
    destruct (outcome net _) as [e|u]; [|discriminate Hf].
    cbn [final]. repeat split.
    eapply error_shown_or_else; [reflexivity|discriminate].
  - intros Hsend Hf s'. subst s'. unfold raises in Hf.
    rewrite (exec_saveEdit_send _ _ _ Hsend).
    destruct (outcome net _) as [e|u]; [|discriminate Hf].
    cbn [final]. repeat split.
    eapply error_shown_or_else; [reflexivity|discriminate].
Qed.

(** The backend answers 500 to the toggle of [task_A], and 404 to a
    title save of the same task. *)
Lemma failed_update_changes_nothing_witness :
  let s := idle [task_A; task_B] in
  let e := editing task_A "A2" in
  (tasks (final (exec (answer 500 (inr task_A_done) (inr [])) (handleToggle task_A) s))
   = [task_A; task_B] /\
   error_shown (final (exec (answer 500 (inr task_A_done) (inr []))
                            (handleToggle task_A) s))) /\
  (tasks (final (exec (answer 404 (inr task_A_done) (inr [])) (saveEdit e task_A) e))
   = [task_A] /\
   error_shown (final (exec (answer 404 (inr task_A_done) (inr []))
                            (saveEdit e task_A) e))).
Proof.
  intros s e. split.
  - destruct (proj1 (failed_update_changes_nothing
                       (answer 500 (inr task_A_done) (inr [])) task_A s) eq_refl)
      as (Ht & _ & He).
    split; [exact Ht|exact He].
  - destruct (proj2 (failed_update_changes_nothing
                       (answer 404 (inr task_A_done) (inr [])) task_A e)
                    eq_refl eq_refl)
      as (Ht & _ & He).
    split; [exact Ht|exact He].
Defined.

(** C6. Submitting the add form while the input holds no character other
    than white space (the empty input included) sends no request and
    leaves every cell of the state as it was. *)
Theorem blank_title_add_is_noop (net : Network) (s : State) :
  whitespace_only (newTitle s) = true ->
  trace (exec net (handleAdd s) s) = [] /\
  final (exec net (handleAdd s) s) = s.
Proof.
  intros H. rewrite exec_handleAdd_blank; [split; reflexivity|].
  apply falsy_true. now apply trim_whitespace_only.
Qed.

Lemma blank_title_add_is_noop_witness :
  let s := typing (String " " (String "009" (String "160" ""))) in
  trace (exec (answer 201 (inr task_B) (inr [])) (handleAdd s) s) = [] /\
  final (exec (answer 201 (inr task_B) (inr [])) (handleAdd s) s) = s.
Proof.
  apply (blank_title_add_is_noop (answer 201 (inr task_B) (inr []))
           (typing (String " " (String "009" (String "160" ""))))).
  reflexivity.
Defined.

(** C7. When a create request is sent and fails, the collection is
    unchanged, the error banner holds a non-empty message and the new-task
    input still holds the text the user typed. When the failure is a
    response that is not ok, the message is that of [createTask] with the
    status, as in ["Failed to create task: 500"]. *)
Theorem failed_create_keeps_input (net : Network) (s : State) :
  falsy (trim (newTitle s)) = false ->
  raises net (createTask (trim (newTitle s))) = true ->
  let s' := final (exec net (handleAdd s) s) in
  tasks s' = tasks s /\
  error_shown s' /\
  newTitle s' = newTitle s /\
  forall res, net (POST_tasks (trim (newTitle s))) = inr res -> ok res = false ->
    error s' = Some ("Failed to create task: " ++ of_number (status res)).
Proof.
  intros Hsend Hf s'. subst s'. unfold raises in Hf.
  rewrite (exec_handleAdd_send _ _ Hsend).
  pose proof (createTask_outcome net (trim (newTitle s))) as Ho.
  destruct (outcome net _) as [e|u]; [|discriminate Hf].
  cbn [final tasks newTitle error].
  split; [reflexivity|]. split; [|split; [reflexivity|]].
  - eapply error_shown_or_else; [reflexivity|discriminate].
  - intros res Hres Hok. unfold api_result in Ho. rewrite Hres, Hok in Ho.
    injection Ho as ->. unfold api_failure. cbn [message].
    reflexivity.
Qed.

(** The scenario of the specification: the create is answered 500. *)
Lemma failed_create_keeps_input_witness :
  let s := typing " buy milk " in
  let s' := final (exec (answer 500 (inr task_B) (inr [])) (handleAdd s) s) in
  tasks s' = [task_A] /\
  error s' = Some "Failed to create task: 500" /\
  newTitle s' = " buy milk ".
Proof.
  intros s s'.
  destruct (failed_create_keeps_input (answer 500 (inr task_B) (inr [])) s
              eq_refl eq_refl) as (Ht & _ & Hn & He).
  split; [exact Ht|]. split; [|exact Hn].
  exact (He (mkResponse 500 (inr task_B)) eq_refl eq_refl).
Defined.

(** C8, as amended. Let [draft] be the edit buffer after [trim]. When
    [draft] is empty or equal to the task's title, [saveEdit] is
    [cancelEdit]: no request, [editingId] and [editingTitle] cleared.
    Otherwise it sends one update carrying [draft] as the title; on success
    the rows with the task's id hold the server's record and edit mode is
    left; on failure the collection is unchanged, the error banner holds a
    non-empty message and [editingId] and [editingTitle] are preserved. *)
Theorem saveEdit_cancels_or_updates (net : Network) (task : Task) (s : State) :
  let draft := trim (editingTitle s) in
  let r := exec net (saveEdit s task) s in
  (draft = "" \/ draft = title task ->
     r = exec net cancelEdit s /\
     trace r = [] /\ editingId (final r) = None /\ editingTitle (final r) = "") /\
  (draft <> "" -> draft <> title task ->
     trace r = [PUT_task (id task) (UpdTitle draft)] /\
     match outcome net (updateTask (id task) (UpdTitle draft)) with
     | inr updated =>
         tasks (final r) = replace_task task updated (tasks s) /\
         editingId (final r) = None /\ editingTitle (final r) = ""
     | inl _ =>
         tasks (final r) = tasks s /\ error_shown (final r) /\
         editingId (final r) = editingId s /\
         editingTitle (final r) = editingTitle s
     end).
Proof.
  intros draft r. subst draft r. split.
  - intros H.
    assert (Hc : falsy (trim (editingTitle s))
                 || (trim (editingTitle s) =? title task) = true).
    { apply orb_true_iff. destruct H as [H|H].
      - left. now apply falsy_true.
      - right. now apply String.eqb_eq. }
    rewrite (exec_saveEdit_cancel _ _ _ Hc), exec_cancelEdit.
    repeat split.
  - intros H1 H2.
    assert (Hc : falsy (trim (editingTitle s))
                 || (trim (editingTitle s) =? title task) = false).
    { apply orb_false_iff. split.
      - now apply falsy_false.
      - now apply String.eqb_neq. }
    rewrite (exec_saveEdit_send _ _ _ Hc). cbn [trace final].
    split; [reflexivity|].
    destruct (outcome net _) as [e|u]; cbn [tasks editingId editingTitle].
    + repeat split. eapply error_shown_or_else; [reflexivity|discriminate].
    + repeat split.
Qed.

Lemma saveEdit_cancels_or_updates_witness :
  let s := editing task_A " A " in
  let e := editing task_A "A2" in
  let net := answer 200 (inr (mkTask (IdNum 1) "A2" false)) (inr []) in
  (trace (exec net (saveEdit s task_A) s) = [] /\
   editingId (final (exec net (saveEdit s task_A) s)) = None) /\
  (trace (exec net (saveEdit e task_A) e) = [PUT_task (IdNum 1) (UpdTitle "A2")] /\
   tasks (final (exec net (saveEdit e task_A) e)) = [mkTask (IdNum 1) "A2" false]).
Proof.
  intros s e net. split.
  - destruct (proj1 (saveEdit_cancels_or_updates net task_A s))
      as (_ & Ht & Hi & _).
    + right. reflexivity.
    + split; [exact Ht|exact Hi].
  - destruct (proj2 (saveEdit_cancels_or_updates net task_A e))
      as (Ht & Hr).
    + discriminate.
    + discriminate.
    + split; [exact Ht|]. exact (proj1 Hr).
Defined.

(** C8 as stated fails in both directions. A draft that is unchanged from
    a stored title with a leading space is sent to the backend, trimmed;
    and a draft of two spaces, which is neither empty nor equal to the
    title, is cancelled without a request. *)
Lemma saveEdit_unchanged_draft_is_sent :
  let net := answer 200 (inr task_padded) (inr []) in
  let s := editing task_padded (title task_padded) in
  let b := editing task_A "  " in
  (editingTitle s = title task_padded /\
   trace (exec net (saveEdit s task_padded) s)
   = [PUT_task (IdNum 3) (UpdTitle "A")]) /\
  (editingTitle b <> "" /\ editingTitle b <> title task_A /\
   trace (exec net (saveEdit b task_A) b) = []).
Proof. repeat split; discriminate. Qed.

(** C9. The busy mark is one slot, so two rows shown busy carry the same
    id. Whatever the exchange gives, [busyId] is [null] once a toggle or a
    delete has run, and once a title save that sent its request has run. A
    title save that only cancels sends nothing and does not write
    [busyId]: it leaves the slot as it found it. *)
Theorem busyId_single_and_cleared (net : Network) (task other : Task) (s : State) :
  (is_busy s task = true -> is_busy s other = true -> id task = id other) /\
  busyId (final (exec net (handleToggle task) s)) = None /\
  busyId (final (exec net (handleDelete task) s)) = None /\
  (trace (exec net (saveEdit s task) s) <> [] ->
     busyId (final (exec net (saveEdit s task) s)) = None) /\
  (trace (exec net (saveEdit s task) s) = [] ->
     busyId (final (exec net (saveEdit s task) s)) = busyId s).
Proof.
  split; [|split; [|split; [|split]]].
  - unfold is_busy. destruct (busyId s) as [b|]; [|discriminate].
    intros H1 H2. apply strict_eq_true in H1, H2. congruence.
  - rewrite exec_handleToggle. now destruct (outcome net _).
  - rewrite exec_handleDelete. now destruct (outcome net _).
  - destruct (falsy (trim (editingTitle s))
              || (trim (editingTitle s) =? title task)) eqn:Hc.
    + rewrite (exec_saveEdit_cancel _ _ _ Hc), exec_cancelEdit.
      intros H. now elim H.
    + rewrite (exec_saveEdit_send _ _ _ Hc). intros _.
      now destruct (outcome net _).
  - destruct (falsy (trim (editingTitle s))
              || (trim (editingTitle s) =? title task)) eqn:Hc.
    + rewrite (exec_saveEdit_cancel _ _ _ Hc), exec_cancelEdit.
      reflexivity.
    + rewrite (exec_saveEdit_send _ _ _ Hc). discriminate.
Qed.

(** The network is down: the toggle, the delete and the title save of
    [task_A] all fail, and the slot is free after each; a save with an
    unchanged draft leaves the free slot free. *)
Lemma busyId_single_and_cleared_witness :
  let e := editing task_A "A2" in
  let u := editing task_A "A" in
  let net := offline (TypeError "Failed to fetch") in
  busyId (final (exec net (handleToggle task_A) e)) = None /\
  busyId (final (exec net (handleDelete task_A) e)) = None /\
  busyId (final (exec net (saveEdit e task_A) e)) = None /\
  busyId (final (exec net (saveEdit u task_A) u)) = None.
Proof.
  intros e u net.
  destruct (busyId_single_and_cleared net task_A task_B e)
    as (_ & Ht & Hd & Hs & _).
  destruct (busyId_single_and_cleared net task_A task_B u)
    as (_ & _ & _ & _ & Hc).
  split; [exact Ht|]. split; [exact Hd|]. split.
  - apply Hs. discriminate.
  - apply Hc. reflexivity.
Defined.

(** C10. A toggle and a delete, on success as on failure, leave the
    filter mode, the new-task input, the edit state and the loading flag as
    they were: they write the collection, [busyId] and [error] only. *)
Theorem toggle_delete_frame (net : Network) (task : Task) (s : State) :
  let t := final (exec net (handleToggle task) s) in
  let d := final (exec net (handleDelete task) s) in
  (filter t = filter s /\ newTitle t = newTitle s /\
   editingId t = editingId s /\ editingTitle t = editingTitle s /\
   loading t = loading s) /\
  (filter d = filter s /\ newTitle d = newTitle s /\
   editingId d = editingId s /\ editingTitle d = editingTitle s /\
   loading d = loading s).
Proof.
  intros t d. subst t d. rewrite exec_handleToggle, exec_handleDelete.
  split; destruct (outcome net _); repeat split.
Qed.

(** ** Further properties of the component *)

(** *** What [trim] keeps *)

Lemma trimStart_split (s : string) :
  exists lead, s = lead ++ trimStart s /\ whitespace_only lead = true.
Proof.
  induction s as [|c r (lead & Hr & Hl)]; simpl.
  - exists "". split; reflexivity.
  - destruct (is_white_space c) eqn:Hc.
    + exists (String c lead). simpl. rewrite Hc, Hl, <- Hr. split; reflexivity.
    + exists "". split; reflexivity.
Qed.

Lemma trimEnd_split (s : string) :
  exists trail, s = trimEnd s ++ trail /\ whitespace_only trail = true.
Proof.
  induction s as [|c r (trail & Hr & Hl)]; simpl.
  - exists "". split; reflexivity.
  - destruct (trimEnd r) as [|d r'] eqn:Hr'.
    + simpl in Hr. subst trail.
      destruct (is_white_space c) eqn:Hc.
      * exists (String c r). simpl. rewrite Hc, Hl. split; reflexivity.
      * exists r. split; [reflexivity|exact Hl].
    + exists trail. simpl. split; [|exact Hl]. now rewrite Hr at 1.
Qed.

Lemma trimEnd_idempotent (s : string) : trimEnd (trimEnd s) = trimEnd s.
Proof.
  induction s as [|c r IH]; simpl; [reflexivity|].
  destruct (trimEnd r) as [|d r'] eqn:Hr.
  - destruct (is_white_space c) eqn:Hc; simpl; [reflexivity|].
    now rewrite Hc.
  - remember (String d r') as t eqn:Ht.
    cbn [trimEnd]. rewrite IH. now subst t.
Qed.

Lemma trimStart_trimEnd_clean (s : string) :
  trimStart s = s -> trimStart (trimEnd s) = trimEnd s.
Proof.
  destruct s as [|c r]; [reflexivity|].
  cbn [trimStart]. destruct (is_white_space c) eqn:Hc.
  - intros H. exfalso.
    assert (L : String.length (trimStart r) <= String.length r).
    { clear. induction r as [|a r IH]; simpl; [lia|].
      destruct (is_white_space a); simpl; lia. }
    rewrite H in L. simpl in L. lia.
  - intros _. cbn [trimEnd].
    destruct (trimEnd r); rewrite ?Hc; cbn [trimStart]; now rewrite Hc.
Qed.

Lemma trimStart_idempotent (s : string) : trimStart (trimStart s) = trimStart s.
Proof.
  induction s as [|c r IH]; simpl; [reflexivity|].
  destruct (is_white_space c) eqn:Hc; [exact IH|].
  simpl. now rewrite Hc.
Qed.

Lemma trim_idempotent (s : string) : trim (trim s) = trim s.
Proof.
  unfold trim.
  rewrite (trimStart_trimEnd_clean (trimStart s) (trimStart_idempotent s)).
  apply trimEnd_idempotent.
Qed.

(** [s] is [trim s] between two runs of white space. *)
Lemma trim_split (s : string) :
  exists lead trail,
    s = lead ++ trim s ++ trail /\
    whitespace_only lead = true /\ whitespace_only trail = true.
Proof.
  destruct (trimStart_split s) as (lead & Hs & Hl).
  destruct (trimEnd_split (trimStart s)) as (trail & Ht & Htl).
  exists lead, trail. unfold trim. rewrite <- Ht. auto.
Qed.

(** *** Runs of the mount effect *)

Lemma exec_loadOnMount (net : Network) (ignore : bool) (s : State) :
  exec net (loadOnMount ignore) s
  = mkRun
      (if ignore
       then mkState (tasks s) (newTitle s) true (busyId s) None
                    (filter s) (editingId s) (editingTitle s)
       else match outcome net fetchTasks with
            | inr data =>
                mkState data (newTitle s) false (busyId s) None
                        (filter s) (editingId s) (editingTitle s)
            | inl err =>
                mkState (tasks s) (newTitle s) false (busyId s)
                        (Some (or_else (message err) "Failed to load"))
                        (filter s) (editingId s) (editingTitle s)
            end)
      (inr tt)
      [GET_tasks].
Proof.
  rewrite fetchTasks_outcome.
  unfold loadOnMount, fetchTasks, fetch, read_json, api_result, api_failure,
    setLoading, setError, setTasks.
  destruct ignore; cbn [negb]; by_exchange net GET_tasks.
Qed.

(** *** Adding *)

(** X1. When the input is not blank and the create succeeds, the record the
    server returned is put in front of the collection, whose other elements
    keep their order; the input is emptied, the banner cleared, and one
    POST carrying the trimmed input has been sent. *)
Theorem add_success_prepends (net : Network) (s : State) (created : Task) :
  falsy (trim (newTitle s)) = false ->
  outcome net (createTask (trim (newTitle s))) = inr created ->
  let r := exec net (handleAdd s) s in
  trace r = [POST_tasks (trim (newTitle s))] /\
  tasks (final r) = created :: tasks s /\
  newTitle (final r) = "" /\
  error (final r) = None /\
  loading (final r) = false.
Proof.
  intros Hsend Hok r. subst r.
  rewrite (exec_handleAdd_send _ _ Hsend), Hok. repeat split.
Qed.

Lemma add_success_prepends_witness :
  let s := typing " buy milk " in
  let r := exec (answer 201 (inr task_B) (inr [])) (handleAdd s) s in
  trace r = [POST_tasks "buy milk"] /\
  tasks (final r) = [task_B; task_A] /\
  newTitle (final r) = "" /\
  error (final r) = None /\
  loading (final r) = false.
Proof.
  apply (add_success_prepends (answer 201 (inr task_B) (inr []))
           (typing " buy milk ") task_B); reflexivity.
Defined.

(** X2. A title that reaches the backend, from the add form or from a title
    save, is not empty and has no white space left to trim; it is the
    text of the input with white space removed at both ends only. A title
    save never sends the title the task already has. *)
Theorem sent_titles_are_trimmed (net : Network) (task : Task) (s : State) :
  (forall t, In (POST_tasks t) (trace (exec net (handleAdd s) s)) ->
     t <> "" /\ trim t = t /\
     exists lead trail, newTitle s = lead ++ t ++ trail /\
       whitespace_only lead = true /\ whitespace_only trail = true) /\
  (forall i t, In (PUT_task i (UpdTitle t)) (trace (exec net (saveEdit s task) s)) ->
     t <> "" /\ trim t = t /\ t <> title task /\
     exists lead trail, editingTitle s = lead ++ t ++ trail /\
       whitespace_only lead = true /\ whitespace_only trail = true).
Proof.
  split.
  - intros t. destruct (falsy (trim (newTitle s))) eqn:Hc.
    + rewrite (exec_handleAdd_blank _ _ Hc). intros [].
    + rewrite (exec_handleAdd_send _ _ Hc). cbn [trace].
      intros [H|[]]. injection H as <-.
      split; [now apply falsy_false|]. split; [apply trim_idempotent|].
      apply trim_split.
  - intros i t.
    destruct (falsy (trim (editingTitle s))
              || (trim (editingTitle s) =? title task)) eqn:Hc.
    + rewrite (exec_saveEdit_cancel _ _ _ Hc), exec_cancelEdit. intros [].
    + rewrite (exec_saveEdit_send _ _ _ Hc). cbn [trace].
      intros [H|[]]. injection H as _ <-.
      apply orb_false_iff in Hc as [Hc1 Hc2].
      split; [now apply falsy_false|]. split; [apply trim_idempotent|].
      split; [now apply String.eqb_neq|]. apply trim_split.
Qed.

Lemma sent_titles_are_trimmed_witness :
  "buy milk" <> "" /\ trim "buy milk" = "buy milk" /\
  exists lead trail, " buy milk " = lead ++ "buy milk" ++ trail /\
    whitespace_only lead = true /\ whitespace_only trail = true.
Proof.
  apply (proj1 (sent_titles_are_trimmed (answer 201 (inr task_B) (inr []))
                  task_A (typing " buy milk ")) "buy milk").
  simpl. left. reflexivity.
Defined.

(** X3. The Add button and the handler agree. A blank input disables the
    button; when the button is enabled a submit sends exactly one POST;
    after a successful add the button is disabled again, the input being
    empty, and after a failed one it is enabled for another try. *)
Theorem add_button_guard (net : Network) (s : State) :
  (whitespace_only (newTitle s) = true -> addDisabled s = true) /\
  (addDisabled s = false ->
     trace (exec net (handleAdd s) s) = [POST_tasks (trim (newTitle s))] /\
     addDisabled (final (exec net (handleAdd s) s))
     = negb (raises net (createTask (trim (newTitle s))))).
Proof.
  unfold addDisabled. split.
  - intros H. rewrite (trim_whitespace_only _ H). apply orb_true_r.
  - intros H. apply orb_false_iff in H as [Hl Hc].
    rewrite (exec_handleAdd_send _ _ Hc). unfold raises.
    split; [reflexivity|].
    destruct (outcome net _); cbn [final loading newTitle failed negb].
    + rewrite Hc. reflexivity.
    + reflexivity.
Qed.

Lemma add_button_guard_witness :
  let s := typing " buy milk " in
  trace (exec (answer 500 (inr task_B) (inr [])) (handleAdd s) s)
  = [POST_tasks "buy milk"] /\
  addDisabled (final (exec (answer 500 (inr task_B) (inr [])) (handleAdd s) s))
  = false.
Proof.
  apply (proj2 (add_button_guard (answer 500 (inr task_B) (inr []))
                  (typing " buy milk "))).
  reflexivity.
Defined.

(** *** Failures are contained *)

(** X4. No handler lets a failure escape: whatever the network does, each of
    them returns normally, and the mount effect's promise chain settles
    without rejection. *)
Theorem handlers_never_reject (net : Network) (task : Task) (ignore : bool) (s : State) :
  result (exec net (handleAdd s) s) = inr tt /\
  result (exec net (handleToggle task) s) = inr tt /\
  result (exec net (handleDelete task) s) = inr tt /\
  result (exec net (saveEdit s task) s) = inr tt /\
  result (exec net (loadOnMount ignore) s) = inr tt.
Proof.
  split; [|split; [|split; [|split]]].
  - destruct (falsy (trim (newTitle s))) eqn:Hc.
    + now rewrite (exec_handleAdd_blank _ _ Hc).
    + now rewrite (exec_handleAdd_send _ _ Hc).
  - now rewrite exec_handleToggle.
  - now rewrite exec_handleDelete.
  - destruct (falsy (trim (editingTitle s))
              || (trim (editingTitle s) =? title task)) eqn:Hc.
    + now rewrite (exec_saveEdit_cancel _ _ _ Hc), exec_cancelEdit.
    + now rewrite (exec_saveEdit_send _ _ _ Hc).
  - now rewrite exec_loadOnMount.
Qed.

(** X5. When the delete request fails, the collection and the visible list
    are what they were and the banner holds a non-empty message: the
    failure's own, or ["Failed to delete task"] when that is empty. *)
Theorem failed_delete_changes_nothing (net : Network) (task : Task) (s : State) (e : Exn) :
  outcome net (deleteTask (id task)) = inl e ->
  let s' := final (exec net (handleDelete task) s) in
  tasks s' = tasks s /\ visibleTasks s' = visibleTasks s /\
  error s' = Some (or_else (message e) "Failed to delete task") /\
  error_shown s'.
Proof.
  intros Hf s'. subst s'. rewrite exec_handleDelete, Hf. cbn [final].
  repeat split. eapply error_shown_or_else; [reflexivity|discriminate].
Qed.

Lemma failed_delete_changes_nothing_witness :
  let s' := final (exec (offline (TypeError "")) (handleDelete task_A)
                        (idle [task_A; task_B])) in
  tasks s' = [task_A; task_B] /\ visibleTasks s' = [task_A; task_B] /\
  error s' = Some "Failed to delete task" /\
  error_shown s'.
Proof.
  apply (failed_delete_changes_nothing (offline (TypeError "")) task_A
           (idle [task_A; task_B]) (TypeError "")).
  reflexivity.
Defined.

(** X6. A successful add, toggle, delete or title save leaves the banner
    empty, whatever message it held before. *)
Theorem success_clears_error (net : Network) (task : Task) (s : State) :
  (falsy (trim (newTitle s)) = false ->
   raises net (createTask (trim (newTitle s))) = false ->
   error (final (exec net (handleAdd s) s)) = None) /\
  (raises net (updateTask (id task) (UpdCompleted (negb (completed task)))) = false ->
   error (final (exec net (handleToggle task) s)) = None) /\
  (raises net (deleteTask (id task)) = false ->
   error (final (exec net (handleDelete task) s)) = None) /\
  (falsy (trim (editingTitle s)) || (trim (editingTitle s) =? title task) = false ->
   raises net (updateTask (id task) (UpdTitle (trim (editingTitle s)))) = false ->
   error (final (exec net (saveEdit s task) s)) = None).
Proof.
  unfold raises. split; [|split; [|split]].
  - intros Hc Hr. rewrite (exec_handleAdd_send _ _ Hc).
    destruct (outcome net _); [discriminate Hr|reflexivity].
  - intros Hr. rewrite exec_handleToggle.
    destruct (outcome net _); [discriminate Hr|reflexivity].
  - intros Hr. rewrite exec_handleDelete.
    destruct (outcome net _); [discriminate Hr|reflexivity].
  - intros Hc Hr. rewrite (exec_saveEdit_send _ _ _ Hc).
    destruct (outcome net _); [discriminate Hr|reflexivity].
Qed.

Lemma success_clears_error_witness :
  let s := mkState [task_A] " x " false None (Some "Failed to update task: 500")
                   All (Some (IdNum 1)) "A2" in
  let net := answer 200 (inr task_A_done) (inr []) in
  error (final (exec net (handleAdd s) s)) = None /\
  error (final (exec net (handleToggle task_A) s)) = None /\
  error (final (exec net (handleDelete task_A) s)) = None /\
  error (final (exec net (saveEdit s task_A) s)) = None.
Proof.
  intros s net.
  destruct (success_clears_error net task_A s) as (Ha & Ht & Hd & He).
  split; [apply Ha; reflexivity|]. split; [apply Ht; reflexivity|].
  split; [apply Hd; reflexivity|apply He; reflexivity].
Defined.

(** X7. An attempt that failed leaves nothing behind that a second attempt
    could see: running a handler again after its request failed gives the
    very run it would have given in the first place. *)
Theorem failed_attempt_leaves_no_residue
    (net1 net2 : Network) (task : Task) (s : State) :
  (raises net1 (updateTask (id task) (UpdCompleted (negb (completed task)))) = true ->
   exec net2 (handleToggle task) (final (exec net1 (handleToggle task) s))
   = exec net2 (handleToggle task) s) /\
  (raises net1 (deleteTask (id task)) = true ->
   exec net2 (handleDelete task) (final (exec net1 (handleDelete task) s))
   = exec net2 (handleDelete task) s) /\
  (raises net1 (createTask (trim (newTitle s))) = true ->
   let s1 := final (exec net1 (handleAdd s) s) in
   exec net2 (handleAdd s1) s1 = exec net2 (handleAdd s) s) /\
  (raises net1 (updateTask (id task) (UpdTitle (trim (editingTitle s)))) = true ->
   let s1 := final (exec net1 (saveEdit s task) s) in
   exec net2 (saveEdit s1 task) s1 = exec net2 (saveEdit s task) s).
Proof.
  split; [|split; [|split]].
  - intros Hr. unfold raises in Hr. rewrite !exec_handleToggle.
    destruct (outcome net1 _); [reflexivity|discriminate Hr].
  - intros Hr. unfold raises in Hr. rewrite !exec_handleDelete.
    destruct (outcome net1 _); [reflexivity|discriminate Hr].
  - intros Hr s1. subst s1. unfold raises in Hr.
    destruct (falsy (trim (newTitle s))) eqn:Hc.
    + rewrite (exec_handleAdd_blank net1 _ Hc). reflexivity.
    + rewrite (exec_handleAdd_send net1 _ Hc).
      destruct (outcome net1 _) as [e|]; [|discriminate Hr]. cbn [final].
      rewrite !exec_handleAdd_send by exact Hc. reflexivity.
  - intros Hr s1. subst s1. unfold raises in Hr.
    destruct (falsy (trim (editingTitle s))
              || (trim (editingTitle s) =? title task)) eqn:Hc.
    + rewrite (exec_saveEdit_cancel net2 s _ Hc).
      rewrite (exec_saveEdit_cancel net1 s _ Hc).
      reflexivity.
    + rewrite (exec_saveEdit_send net1 _ _ Hc).
      destruct (outcome net1 _) as [e|]; [|discriminate Hr]. cbn [final].
      rewrite !exec_saveEdit_send by exact Hc. reflexivity.
Qed.

(** A toggle answered 503, then answered 200. *)
Lemma failed_attempt_leaves_no_residue_witness :
  let s := idle [task_A; task_B] in
  let down := answer 503 (inr task_A) (inr []) in
  let up := answer 200 (inr task_A_done) (inr []) in
  exec up (handleToggle task_A) (final (exec down (handleToggle task_A) s))
  = exec up (handleToggle task_A) s.
Proof.
  intros s down up.
  apply (proj1 (failed_attempt_leaves_no_residue down up task_A s)).
  reflexivity.
Defined.

(** X8. Besides the collection and the banner, an add writes [newTitle] and
    [loading] only, and a title save [busyId] and the edit state only. An
    add that sent its request ends with [loading] off on every outcome. *)
Theorem add_and_save_frame (net : Network) (task : Task) (s : State) :
  let a := final (exec net (handleAdd s) s) in
  let e := final (exec net (saveEdit s task) s) in
  (busyId a = busyId s /\ filter a = filter s /\
   editingId a = editingId s /\ editingTitle a = editingTitle s) /\
  (trace (exec net (handleAdd s) s) <> [] -> loading a = false) /\
  (newTitle e = newTitle s /\ loading e = loading s /\ filter e = filter s).
Proof.
  intros a e. subst a e. split; [|split].
  - destruct (falsy (trim (newTitle s))) eqn:Hc.
    + rewrite (exec_handleAdd_blank _ _ Hc). repeat split.
    + rewrite (exec_handleAdd_send _ _ Hc).
      destruct (outcome net _); repeat split.
  - destruct (falsy (trim (newTitle s))) eqn:Hc.
    + rewrite (exec_handleAdd_blank _ _ Hc). intros H. now elim H.
    + rewrite (exec_handleAdd_send _ _ Hc). intros _.
      now destruct (outcome net _).
  - destruct (falsy (trim (editingTitle s))
              || (trim (editingTitle s) =? title task)) eqn:Hc.
    + rewrite (exec_saveEdit_cancel _ _ _ Hc), exec_cancelEdit. repeat split.
    + rewrite (exec_saveEdit_send _ _ _ Hc).
      destruct (outcome net _); repeat split.
Qed.

Lemma add_and_save_frame_witness :
  let s := mkState [task_A] " x " true None None Active None "" in
  loading (final (exec (offline (TypeError "Failed to fetch")) (handleAdd s) s))
  = false.
Proof.
  intros s.
  destruct (add_and_save_frame (offline (TypeError "Failed to fetch")) task_A s)
    as (_ & Hl & _).
  apply Hl. discriminate.
Defined.

(** *** Loading on mount *)

(** X9. While the component is mounted, the effect sends one GET and ends
    with [loading] off. On success the collection is the list returned and
    the banner is empty; on failure the collection is untouched and the
    banner holds a non-empty message. The other cells are not written. *)
Theorem load_on_mount_settles (net : Network) (s : State) :
  let r := exec net (loadOnMount false) s in
  trace r = [GET_tasks] /\
  loading (final r) = false /\
  match outcome net fetchTasks with
  | inr data => tasks (final r) = data /\ error (final r) = None
  | inl e => tasks (final r) = tasks s /\
             error (final r) = Some (or_else (message e) "Failed to load") /\
             error_shown (final r)
  end /\
  (newTitle (final r) = newTitle s /\ busyId (final r) = busyId s /\
   filter (final r) = filter s /\ editingId (final r) = editingId s /\
   editingTitle (final r) = editingTitle s).
Proof.
  intros r. subst r. rewrite exec_loadOnMount.
  destruct (outcome net fetchTasks); cbn [final trace]; repeat split.
  eapply error_shown_or_else; [reflexivity|discriminate].
Qed.

(** X10. Once the component is unmounted the response is dropped: the request
    has been sent all the same, but the final state does not depend on the
    network, the collection is untouched and [loading] is still on. *)
Theorem load_after_unmount_is_dropped (net net' : Network) (s : State) :
  let r := exec net (loadOnMount true) s in
  trace r = [GET_tasks] /\
  final r = final (exec net' (loadOnMount true) s) /\
  tasks (final r) = tasks s /\
  loading (final r) = true /\
  error (final r) = None.
Proof.
  intros r. subst r. rewrite !exec_loadOnMount. repeat split.
Qed.

(** *** The collection and its views *)

Lemma filter_swap {A} (p q : A -> bool) (l : list A) :
  List.filter p (List.filter q l) = List.filter q (List.filter p l).
Proof.
  induction l as [|x l IH]; simpl; [reflexivity|].
  destruct (p x) eqn:Hp, (q x) eqn:Hq; simpl; rewrite ?Hp, ?Hq, IH; reflexivity.
Qed.

Lemma remove_task_absent (task : Task) (l : list Task) :
  ~ In (id task) (map id l) -> remove_task task l = l.
Proof.
  unfold remove_task. induction l as [|t l IH]; simpl; [reflexivity|].
  intros H. destruct (strict_eq_spec (id t) (id task)); [tauto|].
  simpl. f_equal. apply IH. tauto.
Qed.

Lemma unique_id_determines (task t : Task) (l : list Task) :
  NoDup (map id l) -> In task l -> In t l -> id t = id task -> t = task.
Proof.
  induction l as [|x l IH]; simpl; [tauto|].
  intros Hnd Hi Ht E. inversion Hnd as [|? ? Hx Hl]; subst.
  destruct Hi as [->|Hi], Ht as [->|Ht]; [reflexivity| | |now apply IH].
  - exfalso. apply Hx. rewrite <- E. now apply in_map.
  - exfalso. apply Hx. rewrite E. now apply in_map.
Qed.

Lemma replace_task_same (task : Task) (l : list Task) :
  NoDup (map id l) -> In task l -> replace_task task task l = l.
Proof.
  intros Hnd Hin. unfold replace_task.
  rewrite <- (map_id l) at 2. apply map_ext_in. intros t Ht.
  destruct (strict_eq_spec (id t) (id task)) as [E|]; [|reflexivity].
  symmetry. now apply (unique_id_determines task t l).
Qed.

Lemma replace_task_back (task task1 : Task) (l : list Task) :
  id task1 = id task ->
  replace_task task1 task (replace_task task task1 l) = replace_task task task l.
Proof.
  intros E. unfold replace_task. rewrite map_map. apply map_ext. intros t.
  rewrite E. destruct (strict_eq (id t) (id task)) eqn:Ht.
  - now rewrite E, strict_eq_refl.
  - now rewrite Ht.
Qed.

Lemma replace_task_ids (task updated : Task) (l : list Task) :
  id updated = id task -> map id (replace_task task updated l) = map id l.
Proof.
  intros E. unfold replace_task. rewrite map_map. apply map_ext. intros t.
  destruct (strict_eq_spec (id t) (id task)); congruence.
Qed.

Lemma remove_task_unique (task : Task) (l : list Task) :
  NoDup (map id l) -> NoDup (map id (remove_task task l)).
Proof.
  unfold remove_task. induction l as [|t l IH]; simpl; [auto|].
  intros Hnd. inversion Hnd as [|? ? Hx Hl]; subst.
  destruct (strict_eq (id t) (id task)); simpl; [now apply IH|].
  constructor; [|now apply IH].
  intros Hin. apply Hx. apply in_map_iff in Hin as (u & Hu & Hin).
  apply filter_In in Hin as [Hin _]. rewrite <- Hu. now apply in_map.
Qed.

(** X11. A successful delete shows in every view: the visible list after it
    is the visible list before it without the elements of the task's id,
    the others in their order. *)
Theorem delete_shows_in_every_view (net : Network) (task : Task) (s : State) :
  outcome net (deleteTask (id task)) = inr true ->
  visibleTasks (final (exec net (handleDelete task) s))
  = remove_task task (visibleTasks s).
Proof.
  intros Hok. rewrite exec_handleDelete, Hok. unfold visibleTasks, remove_task.
  cbn [final filter tasks].
  destruct (filter s); [reflexivity| |]; apply filter_swap.
Qed.

Lemma delete_shows_in_every_view_witness :
  visibleTasks (final (exec (answer 204 (inr task_A) (inr [])) (handleDelete task_B)
                            (mkState [task_A; task_B; task_A_twin] "" false None None
                                     Completed None "")))
  = [task_A_twin].
Proof.
  apply (delete_shows_in_every_view (answer 204 (inr task_A) (inr [])) task_B
           (mkState [task_A; task_B; task_A_twin] "" false None None
                    Completed None "")).
  reflexivity.
Defined.

(** X12. In the Active view, a toggle that the server answers with a completed
    record takes the rows of the task's id out of the visible list and
    keeps exactly the other visible rows. *)
Theorem completing_leaves_active_view
    (net : Network) (task updated : Task) (s : State) :
  filter s = Active ->
  outcome net (updateTask (id task) (UpdCompleted (negb (completed task))))
    = inr updated ->
  completed updated = true ->
  forall t, In t (visibleTasks (final (exec net (handleToggle task) s)))
            <-> In t (visibleTasks s) /\ id t <> id task.
Proof.
  intros Hf Hok Hc t. rewrite exec_handleToggle, Hok.
  unfold visibleTasks. cbn [final filter tasks]. rewrite Hf.
  rewrite !filter_In. unfold replace_task. rewrite in_map_iff. split.
  - intros [(u & Hu & Hin) Ht].
    destruct (strict_eq_spec (id u) (id task)) as [E|E]; subst t.
    + rewrite Hc in Ht. discriminate Ht.
    + auto.
  - intros [[Hin Ht] Hne]. split; [|exact Ht].
    exists t. split; [|exact Hin].
    destruct (strict_eq_spec (id t) (id task)); [contradiction|reflexivity].
Qed.

Lemma completing_leaves_active_view_witness :
  let s := mkState [task_A; mkTask (IdNum 5) "C" false] "" false None None
                   Active None "" in
  In (mkTask (IdNum 5) "C" false)
     (visibleTasks (final (exec (answer 200 (inr task_A_done) (inr []))
                                (handleToggle task_A) s))).
Proof.
  intros s.
  apply (completing_leaves_active_view (answer 200 (inr task_A_done) (inr []))
           task_A task_A_done s eq_refl eq_refl eq_refl).
  split; [simpl; auto|discriminate].
Defined.

(** X13. With a backend that stores what it is sent, and a collection whose
    ids are pairwise distinct, toggling a task and then toggling the row
    it became gives back the collection as it was. *)
Theorem toggle_twice_restores (net : Network) (task : Task) (s : State) :
  obeys net task ->
  NoDup (map id (tasks s)) ->
  In task (tasks s) ->
  let task1 := applied task (UpdCompleted (negb (completed task))) in
  let s1 := final (exec net (handleToggle task) s) in
  In task1 (tasks s1) /\
  tasks (final (exec net (handleToggle task1) s1)) = tasks s.
Proof.
  intros Hnet Hnd Hin task1 s1. subst task1 s1.
  assert (Hout : forall u, outcome net (updateTask (id task) u)
                           = inr (applied task u)).
  { intros u. rewrite updateTask_outcome, Hnet. reflexivity. }
  rewrite !exec_handleToggle. cbn [applied id completed].
  rewrite !Hout. cbn [final tasks].
  split; [now apply replace_task_In|].
  rewrite negb_involutive. cbn [applied].
  destruct task as [i t c]. cbn [id title completed].
  rewrite replace_task_back by reflexivity.
  now apply replace_task_same.
Qed.

Lemma toggle_twice_restores_witness :
  tasks (final (exec (store task_A) (handleToggle task_A_done)
                     (final (exec (store task_A) (handleToggle task_A)
                                  (idle [task_A; task_B])))))
  = [task_A; task_B].
Proof.
  apply (toggle_twice_restores (store task_A) task_A (idle [task_A; task_B])).
  - intros u. reflexivity.
  - simpl. repeat constructor; simpl; intuition discriminate.
  - simpl. auto.
Defined.

(** X14. The ids of the collection. A toggle or a title save whose answer
    keeps the task's id leaves the sequence of ids as it was; a delete
    keeps pairwise distinct ids distinct; an add does so when the id of the
    created record is not yet in the collection. *)
Theorem ids_are_kept (net : Network) (task : Task) (s : State) :
  (forall updated,
     outcome net (updateTask (id task) (UpdCompleted (negb (completed task))))
       = inr updated -> id updated = id task ->
     map id (tasks (final (exec net (handleToggle task) s))) = map id (tasks s)) /\
  (forall updated,
     outcome net (updateTask (id task) (UpdTitle (trim (editingTitle s))))
       = inr updated -> id updated = id task ->
     map id (tasks (final (exec net (saveEdit s task) s))) = map id (tasks s)) /\
  (NoDup (map id (tasks s)) ->
     NoDup (map id (tasks (final (exec net (handleDelete task) s))))) /\
  (forall created,
     outcome net (createTask (trim (newTitle s))) = inr created ->
     ~ In (id created) (map id (tasks s)) ->
     NoDup (map id (tasks s)) ->
     NoDup (map id (tasks (final (exec net (handleAdd s) s))))).
Proof.
  split; [|split; [|split]].
  - intros updated Hok E. rewrite exec_handleToggle, Hok. cbn [final tasks].
    now apply replace_task_ids.
  - intros updated Hok E.
    destruct (falsy (trim (editingTitle s))
              || (trim (editingTitle s) =? title task)) eqn:Hc.
    + now rewrite (exec_saveEdit_cancel _ _ _ Hc), exec_cancelEdit.
    + rewrite (exec_saveEdit_send _ _ _ Hc), Hok. cbn [final tasks].
      now apply replace_task_ids.
  - intros Hnd. rewrite exec_handleDelete.
    destruct (outcome net _); cbn [final tasks]; [exact Hnd|].
    now apply remove_task_unique.
  - intros created Hok Hfresh Hnd.
    destruct (falsy (trim (newTitle s))) eqn:Hc.
    + now rewrite (exec_handleAdd_blank _ _ Hc).
    + rewrite (exec_handleAdd_send _ _ Hc), Hok. cbn [final tasks map].
      now constructor.
Qed.

Lemma ids_are_kept_witness :
  NoDup (map id (tasks (final (exec (answer 201 (inr (mkTask (IdNum 7) "x" false)) (inr []))
                                    (handleAdd (typing " x ")) (typing " x "))))).
Proof.
  destruct (ids_are_kept (answer 201 (inr (mkTask (IdNum 7) "x" false)) (inr []))
              task_A (typing " x ")) as (_ & _ & _ & Ha).
  apply (Ha (mkTask (IdNum 7) "x" false)).
  - reflexivity.
  - simpl. intuition discriminate.
  - simpl. repeat constructor. simpl. tauto.
Defined.

(** X15. Adding a task whose id is new to the collection and then deleting
    the created row gives back the collection as it was. *)
Theorem add_then_delete_restores (net : Network) (s : State) (created : Task) :
  falsy (trim (newTitle s)) = false ->
  outcome net (createTask (trim (newTitle s))) = inr created ->
  ~ In (id created) (map id (tasks s)) ->
  outcome net (deleteTask (id created)) = inr true ->
  let s1 := final (exec net (handleAdd s) s) in
  tasks (final (exec net (handleDelete created) s1)) = tasks s.
Proof.
  intros Hc Hok Hfresh Hdel s1. subst s1.
  rewrite exec_handleDelete, Hdel, (exec_handleAdd_send _ _ Hc), Hok.
  cbn [final tasks]. unfold remove_task. cbn [List.filter].
  rewrite strict_eq_refl. cbn [negb].
  now apply remove_task_absent.
Qed.

Lemma add_then_delete_restores_witness :
  let net := answer 201 (inr task_B) (inr []) in
  let s := typing " buy milk " in
  tasks (final (exec net (handleDelete task_B) (final (exec net (handleAdd s) s))))
  = [task_A].
Proof.
  intros net s.
  apply (add_then_delete_restores net s task_B); try reflexivity.
  simpl. intuition discriminate.
Defined.

(** *** Editing *)

(** X16. Opening the editor on a row and saving at once. When the task's
    title has no white space to trim, or is blank, nothing is sent and the
    state is the one before the editor was opened, with the edit cells
    reset. Otherwise the title is sent to the backend, trimmed. *)
Theorem edit_then_save_unchanged (net : Network) (task : Task) (s : State) :
  let s1 := final (exec net (startEdit task) s) in
  let r := exec net (saveEdit s1 task) s1 in
  (editingId s1 = Some (id task) /\ editingTitle s1 = title task) /\
  (trim (title task) = "" \/ trim (title task) = title task ->
     trace r = [] /\
     final r = mkState (tasks s) (newTitle s) (loading s) (busyId s) (error s)
                       (filter s) None "") /\
  (trim (title task) <> "" -> trim (title task) <> title task ->
     trace r = [PUT_task (id task) (UpdTitle (trim (title task)))]).
Proof.
  intros s1 r. subst s1 r. cbn [startEdit exec bind setEditingId setEditingTitle
                                 final editingId editingTitle].
  split; [split; reflexivity|]. split.
  - intros H.
    rewrite exec_saveEdit_cancel; [rewrite exec_cancelEdit; split; reflexivity|].
    cbn [editingTitle]. apply orb_true_iff. destruct H as [H|H].
    + left. now apply falsy_true.
    + right. now apply String.eqb_eq.
  - intros H1 H2. rewrite exec_saveEdit_send; [reflexivity|].
    cbn [editingTitle]. apply orb_false_iff. split.
    + now apply falsy_false.
    + now apply String.eqb_neq.
Qed.

Lemma edit_then_save_unchanged_witness :
  let s := idle [task_A; task_B] in
  let s1 := final (exec (store task_A) (startEdit task_A) s) in
  trace (exec (store task_A) (saveEdit s1 task_A) s1) = [] /\
  final (exec (store task_A) (saveEdit s1 task_A) s1) = s.
Proof.
  intros s s1.
  destruct (edit_then_save_unchanged (store task_A) task_A s) as (_ & H & _).
  apply H. right. reflexivity.
Defined.

(** *** The backend address *)

(** X17. The address is never empty: an unset or empty environment variable
    gives the default. The footer shows it without one leading [http://]
    or [https://]; an address that does not start with [http] is shown as
    it is. *)
Theorem footer_drops_one_scheme (env : option string) (host base : string) :
  API_BASE env <> "" /\
  API_BASE None = API_BASE (Some "") /\
  footerLabel ("http://" ++ host) = host /\
  footerLabel ("https://" ++ host) = host /\
  (strip_prefix "http" base = None -> footerLabel base = base).
Proof.
  split; [|split; [|split; [|split]]].
  - unfold API_BASE. destruct env as [v|]; [|discriminate].
    apply or_else_nonempty. discriminate.
  - reflexivity.
  - unfold footerLabel. cbn [append strip_prefix Ascii.eqb Bool.eqb].
    now destruct host.
  - unfold footerLabel. cbn [append strip_prefix Ascii.eqb Bool.eqb].
    now destruct host.
  - intros H. unfold footerLabel. now rewrite H.
Qed.

Lemma footer_drops_one_scheme_witness :
  footerLabel "/api" = "/api".
Proof.
  apply (footer_drops_one_scheme None "" "/api"). reflexivity.
Defined.
